(** * ais-service: ingestion buffer, partition writer and date-range file catalog

    A shallow embedding of [collector.go] and [api.go], with the parts of the
    Go standard library they call ([time], [fmt], [path/filepath]) modelled to
    the extent the program exercises them. *)

From Stdlib Require Import ZArith Lia Ascii String PrimFloat FloatOps SpecFloat.
From stdpp Require Import gmap strings list sorting.
Local Open Scope string_scope.
Local Open Scope Z_scope.
Local Set Warnings "-register-all".

(** ** Go's [time] package, as used with the layouts of this program *)

Module GoTime.

(** A [time.Time] at second resolution: seconds since the Unix epoch. *)
Definition Time := Z.

Definition secondsPerDay : Z := 86400.

(** [isLeap] of time/time.go. *)
Definition isLeap (year : Z) : bool :=
  (year mod 4 =? 0) && (negb (year mod 100 =? 0) || (year mod 400 =? 0)).

(** [daysIn] of time/time.go: length of a month in a given year. *)
Definition daysIn (month year : Z) : Z :=
  if (month =? 2) && isLeap year then 29
  else if month =? 2 then 28
  else if (month =? 4) || (month =? 6) || (month =? 9) || (month =? 11) then 30
  else 31.

(** Day number (days since 1970-01-01) of a civil date of the proleptic
    Gregorian calendar; the year is counted from March so that the leap day
    comes last. *)
Definition days_from_civil (y m d : Z) : Z :=
  let y' := if m <=? 2 then y - 1 else y in
  let mp := if m <=? 2 then m + 9 else m - 3 in
  365 * y' + y' / 4 - y' / 100 + y' / 400 + (153 * mp + 2) / 5 + d - 1 - 719468.

(** Civil date of a day number. *)
Definition civil_from_days (z : Z) : Z * Z * Z :=
  let z := z + 719468 in
  let era := z / 146097 in
  let doe := z mod 146097 in
  let yoe := (doe - doe / 1460 + doe / 36524 - doe / 146096) / 365 in
  let doy := doe - (365 * yoe + yoe / 4 - yoe / 100) in
  let mp := (5 * doy + 2) / 153 in
  let d := doy - (153 * mp + 2) / 5 + 1 in
  let m := if mp <? 10 then mp + 3 else mp - 9 in
  let y := yoe + era * 400 + (if m <=? 2 then 1 else 0) in
  (y, m, d).

(** The zero [Time] (January 1, year 1, 00:00:00 UTC), returned next to a
    parse error. *)
Definition zeroTime : Time := days_from_civil 1 1 1 * secondsPerDay.

(** [Time.After]. *)
Definition After (t u : Time) : bool := u <? t.

(** [t.AddDate(0, 0, 1)] for a time in UTC: the same clock reading on the
    next calendar day. *)
Definition AddDay (t : Time) : Time := t + secondsPerDay.

(** *** Formatting *)

Definition utod (u : Z) : ascii := ascii_of_N (Z.to_N (48 + u)).

(** Decimal digits of [u], most significant first, by repeated division. *)
Fixpoint digits_loop (fuel : nat) (u : Z) (acc : string) : string :=
  match fuel with
  | O => acc
  | S fuel' =>
      let acc' := String (utod (u mod 10)) acc in
      if u / 10 =? 0 then acc' else digits_loop fuel' (u / 10) acc'
  end.

Definition digits (u : Z) : string :=
  digits_loop (S (Z.to_nat (Z.log2 u))) u "".

Fixpoint zeros (n : nat) : string :=
  match n with O => "" | S n' => String "0" (zeros n') end.

(** [appendInt] of time/format.go: decimal form of [x], zero-padded to
    [width] digits, with the two fast paths for 2- and 4-digit fields. *)
Definition appendInt (x : Z) (width : Z) : string :=
  let sign := if x <? 0 then "-" else "" in
  let u := Z.abs x in
  if (width =? 2) && (u <? 100) then
    sign +:+ String (utod (u / 10)) (String (utod (u mod 10)) "")
  else if (width =? 4) && (u <? 10000) then
    sign +:+ String (utod (u / 1000)) (String (utod (u / 100 mod 10))
               (String (utod (u / 10 mod 10)) (String (utod (u mod 10)) "")))
  else
    let ds := digits u in
    sign +:+ zeros (Z.to_nat (width - Z.of_nat (String.length ds))) +:+ ds.

(** Clock fields of a [Time] read at a zone offset (seconds east of UTC). *)
Definition civilDate (offset : Z) (t : Time) : Z * Z * Z :=
  civil_from_days ((t + offset) / secondsPerDay).
Definition clockHour (offset : Z) (t : Time) : Z := (t + offset) mod secondsPerDay / 3600.
Definition clockMinute (offset : Z) (t : Time) : Z := (t + offset) mod 3600 / 60.
Definition clockSecond (offset : Z) (t : Time) : Z := (t + offset) mod 60.

(** [Format] with layout "2006-01-02". *)
Definition formatYMD (c : Z * Z * Z) : string :=
  let '(y, m, d) := c in
  appendInt y 4 +:+ "-" +:+ appendInt m 2 +:+ "-" +:+ appendInt d 2.

Definition FormatDate (offset : Z) (t : Time) : string :=
  formatYMD (civilDate offset t).

(** [Format] with layout "15-04-05". *)
Definition FormatClock (offset : Z) (t : Time) : string :=
  appendInt (clockHour offset t) 2 +:+ "-" +:+ appendInt (clockMinute offset t) 2
    +:+ "-" +:+ appendInt (clockSecond offset t) 2.

(** [Format] with layout "2006-01-02_15-04-05". *)
Definition FormatStamp (offset : Z) (t : Time) : string :=
  FormatDate offset t +:+ "_" +:+ FormatClock offset t.

(** [t.UTC().Format(time.RFC3339)]. *)
Definition FormatRFC3339UTC (t : Time) : string :=
  FormatDate 0 t +:+ "T" +:+ appendInt (clockHour 0 t) 2 +:+ ":"
    +:+ appendInt (clockMinute 0 t) 2 +:+ ":" +:+ appendInt (clockSecond 0 t) 2 +:+ "Z".

(** *** Parsing with layout "2006-01-02" *)

Definition isDigit (c : ascii) : bool :=
  let n := N_of_ascii c in ((48 <=? n) && (n <=? 57))%N.

Definition digitVal (c : ascii) : Z := Z.of_N (N_of_ascii c) - 48.

(** [time.Parse("2006-01-02", s)]: four year digits, a two-digit month in
    1..12 and a two-digit day valid for that month, and nothing else. *)
Definition ParseDate (s : string) : option Time :=
  match s with
  | String y1 (String y2 (String y3 (String y4 (String sep1
      (String m1 (String m2 (String sep2 (String d1 (String d2 ""))))))))) =>
      if forallb isDigit [y1; y2; y3; y4; m1; m2; d1; d2]
         && bool_decide (sep1 = "-"%char) && bool_decide (sep2 = "-"%char)
      then
        let year := 1000 * digitVal y1 + 100 * digitVal y2 + 10 * digitVal y3 + digitVal y4 in
        let month := 10 * digitVal m1 + digitVal m2 in
        let day := 10 * digitVal d1 + digitVal d2 in
        if (1 <=? month) && (month <=? 12) && (1 <=? day) && (day <=? daysIn month year)
        then Some (days_from_civil year month day * secondsPerDay)
        else None
      else None
  | _ => None
  end.

(** A civil date of the calendar: a month of the year and a day of that
    month. *)
Definition validCivil (c : Z * Z * Z) : Prop :=
  let '(y, m, d) := c in 1 <= m <= 12 /\ 1 <= d <= daysIn m y.

(** Calendar order on (year, month, day). *)
Definition civil_lt (c1 c2 : Z * Z * Z) : Prop :=
  let '(y1, m1, d1) := c1 in
  let '(y2, m2, d2) := c2 in
  y1 < y2 \/ (y1 = y2 /\ (m1 < m2 \/ (m1 = m2 /\ d1 < d2))).

Definition dayNumber (c : Z * Z * Z) : Z :=
  let '(y, m, d) := c in days_from_civil y m d.

(** The instants whose year is written with four digits: from
    0000-01-01T00:00:00 up to, not including, 10000-01-01T00:00:00. *)
Definition minFourDigit : Time := -62167219200.
Definition maxFourDigit : Time := 253402300800.

End GoTime.

(** ** Go's [fmt], [encoding/json] and [path/filepath], as the program uses them *)

Module GoLib.
Import GoTime.

(** A decoded JSON document, as [json.Unmarshal] stores it in an
    [interface{}]: nil, bool, float64, string, []interface{} or
    map[string]interface{}. *)
Inductive JValue : Type :=
  | JNull
  | JBool (b : bool)
  | JNumber (x : float)
  | JString (s : string)
  | JArray (l : list JValue)
  | JObject (m : gmap string JValue).

(** The integer nearest to [m * 2^e], ties to even. *)
Definition roundHalfEven (m : positive) (e : Z) : Z :=
  if 0 <=? e then Z.pos m * 2 ^ e
  else
    let den := 2 ^ (- e) in
    let q := Z.pos m / den in
    let r := Z.pos m mod den in
    if (den <? 2 * r) || ((den =? 2 * r) && Z.odd q) then q + 1 else q.

(** [fmt.Sprintf("%.0f", x)]. *)
Definition Sprintf_0f (x : float) : string :=
  match Prim2SF x with
  | S754_zero s => if s then "-0" else "0"
  | S754_infinity s => if s then "-Inf" else "+Inf"
  | S754_nan => "NaN"
  | S754_finite s m e => (if s then "-" else "") +:+ digits (roundHalfEven m e)
  end.

(** [filepath.Match] for patterns made of literal characters, [*] and [?];
    neither wildcard matches the path separator. *)
Fixpoint Match (pattern name : string) : bool :=
  match pattern with
  | "" => bool_decide (name = "")
  | String p pattern' =>
      if bool_decide (p = "*"%char) then
        (fix star (name : string) : bool :=
           Match pattern' name ||
           match name with
           | "" => false
           | String c name' => negb (bool_decide (c = "/"%char)) && star name'
           end) name
      else
        match name with
        | "" => false
        | String c name' =>
            (if bool_decide (p = "?"%char) then negb (bool_decide (c = "/"%char))
             else bool_decide (p = c))
            && Match pattern' name'
        end
  end.

Fixpoint stripPrefix (prefix s : string) : option string :=
  match prefix, s with
  | "", _ => Some s
  | String a prefix', String b s' =>
      if bool_decide (a = b) then stripPrefix prefix' s' else None
  | String _ _, "" => None
  end.

Fixpoint hasSeparator (s : string) : bool :=
  match s with
  | "" => false
  | String c s' => bool_decide (c = "/"%char) || hasSeparator s'
  end.

End GoLib.

(** ** collector.go *)

Module Collector.
Import GoTime GoLib.

Definition MaxRecordsPerFile : Z := 100000.

(** Go's [int] on the 64-bit targets of the Makefile: two's complement
    wrap-around. *)
Definition wrap_int (x : Z) : Z := (x + 2 ^ 63) mod 2 ^ 64 - 2 ^ 63.

Record AISRecord : Type := mkAISRecord {
  Timestamp : string;
  MMSI : string;
  RawJSON : string;
}.

#[global] Instance AISRecord_eq_dec : EqDecision AISRecord.
Proof. solve_decision. Defined.

(** A file on disk: the rows the Parquet writer accepted for it, and whether
    [WriteStop] completed it with its footer. *)
Record PFile : Type := mkPFile {
  rows : list AISRecord;
  finalized : bool;
}.

(** The lines the program logs. *)
Inductive LogLine : Type :=
  | LogJSONParseError
  | LogBufferFill (percent count : Z)
  | LogLocking
  | LogNoData
  | LogSaving (count : Z) (file : string)
  | LogCreateFailed
  | LogInitFailed
  | LogWriteError
  | LogFinalizeFailed
  | LogWritten (file : string)
  | LogFileSize
  | LogNoFileSize
  | LogCleared.

#[global] Instance LogLine_eq_dec : EqDecision LogLine.
Proof. solve_decision. Defined.

(** The package-level variables of collector.go, the files under the
    working directory (by path), and the log written so far. *)
Record World : Type := mkWorld {
  aisRecords : list AISRecord;
  recordCount : Z;
  lastLogPercent : Z;
  fs : gmap string PFile;
  logs : list LogLine;
}.

Definition initWorld (files : gmap string PFile) : World :=
  mkWorld [] 0 0 files [].

Definition addLog (l : LogLine) (w : World) : World :=
  mkWorld (aisRecords w) (recordCount w) (lastLogPercent w) (fs w) (logs w ++ [l]).

Definition setFile (path : string) (f : PFile) (w : World) : World :=
  mkWorld (aisRecords w) (recordCount w) (lastLogPercent w) (<[path := f]> (fs w)) (logs w).

(** What one call of [saveToParquet] meets outside the program: the clock,
    the local zone offset in force, and whether each library call succeeds. *)
Record FlushEnv : Type := mkFlushEnv {
  flushNow : Time;
  localOffset : Z;
  createOK : bool;
  initOK : bool;
  writeOK : AISRecord -> bool;
  stopOK : bool;
  statOK : bool;
}.

(** [getNewFilePath]: [time.Now()] is read in the local zone. *)
Definition getNewFilePath (offset : Z) (now : Time) : string :=
  "ais_data/" +:+ FormatStamp offset now +:+ ".parquet".

(** [extractMMSI]. *)
Definition extractMMSI (data : gmap string JValue) : string :=
  match data !! "Message" with
  | Some (JObject msg) =>
      match msg !! "PositionReport" with
      | Some (JObject pos) =>
          match pos !! "UserID" with
          | Some (JNumber mmsi) => Sprintf_0f mmsi
          | _ => ""
          end
      | _ => ""
      end
  | _ => ""
  end.

(** The loop over [aisRecords] in [saveToParquet]: a record the writer
    rejects is logged and the loop goes on. *)
Fixpoint writeRecords (ok : AISRecord -> bool) (recs : list AISRecord) (w : World)
  : list AISRecord * World :=
  match recs with
  | [] => ([], w)
  | rec :: recs' =>
      if ok rec then
        let '(written, w') := writeRecords ok recs' w in (rec :: written, w')
      else writeRecords ok recs' (addLog LogWriteError w)
  end.

(** [saveToParquet], the whole body under [mu]. *)
Definition saveToParquet (env : FlushEnv) (w : World) : World :=
  let w := addLog LogLocking w in
  if recordCount w =? 0 then addLog LogNoData w
  else
    let currentFile := getNewFilePath (localOffset env) (flushNow env) in
    let w := addLog (LogSaving (recordCount w) currentFile) w in
    if negb (createOK env) then addLog LogCreateFailed w
    else
      let w := setFile currentFile (mkPFile [] false) w in
      if negb (initOK env) then addLog LogInitFailed w
      else
        let '(written, w) := writeRecords (writeOK env) (aisRecords w) w in
        let w := setFile currentFile (mkPFile written false) w in
        if negb (stopOK env) then addLog LogFinalizeFailed w
        else
          let w := setFile currentFile (mkPFile written true) w in
          let w := addLog (LogWritten currentFile) w in
          let w := addLog (if statOK env then LogFileSize else LogNoFileSize) w in
          addLog LogCleared (mkWorld [] 0 (lastLogPercent w) (fs w) (logs w)).

(** The critical section of [handleAISMessage]. *)
Definition appendRecord (record : AISRecord) (w : World) : World :=
  mkWorld (aisRecords w ++ [record]) (wrap_int (recordCount w + 1))
          (lastLogPercent w) (fs w) (logs w).

(** The progress log of [handleAISMessage]. *)
Definition logProgress (w : World) : World :=
  let currentPercent := Z.quot (wrap_int (recordCount w * 100)) MaxRecordsPerFile in
  if negb (Z.quot currentPercent 10 =? Z.quot (lastLogPercent w) 10) then
    let w := addLog (LogBufferFill currentPercent (recordCount w)) w in
    mkWorld (aisRecords w) (recordCount w) currentPercent (fs w) (logs w)
  else w.

(** The capacity check of [handleAISMessage]. *)
Definition autoFlush (env : FlushEnv) (w : World) : World :=
  if MaxRecordsPerFile <=? recordCount w then saveToParquet env w else w.

Section WithDecoder.

(** [json.Unmarshal(message, &data)] with [data] a [map[string]interface{}]:
    [None] stands for a returned error. *)
Variable json_Unmarshal : string -> option (gmap string JValue).

(** [handleAISMessage]; [now] is the clock read for the record. *)
Definition handleAISMessage (now : Time) (message : string) (env : FlushEnv)
    (w : World) : World :=
  match json_Unmarshal message with
  | None => addLog LogJSONParseError w
  | Some data =>
      let mmsi := extractMMSI data in
      if bool_decide (mmsi = "") then w
      else
        let record := mkAISRecord (FormatRFC3339UTC now) mmsi message in
        autoFlush env (logProgress (appendRecord record w))
  end.

(** What the two goroutines do to the world: the receive loop of
    [connectWebSocket] handles a message, the ticker of [runCollector]
    flushes. *)
Inductive Event : Type :=
  | EvMessage (now : Time) (message : string) (env : FlushEnv)
  | EvTick (env : FlushEnv).

Definition step (w : World) (ev : Event) : World :=
  match ev with
  | EvMessage now message env => handleAISMessage now message env w
  | EvTick env => saveToParquet env w
  end.

Definition run (evs : list Event) (w : World) : World := fold_left step evs w.

End WithDecoder.

(** The same two goroutines at the grain of the mutex: each constructor is
    one stretch of code that runs either wholly under [mu] or between two
    critical sections. *)
Inductive Atomic : Type :=
  | AtAppend (record : AISRecord)
  | AtProgress
  | AtCapacity (env : FlushEnv)
  | AtFlush (env : FlushEnv).

Definition atomicStep (w : World) (a : Atomic) : World :=
  match a with
  | AtAppend record => appendRecord record w
  | AtProgress => logProgress w
  | AtCapacity env => autoFlush env w
  | AtFlush env => saveToParquet env w
  end.

End Collector.

(** ** api.go *)

Module API.
Import GoTime GoLib Collector.

(** The entries of the directory [ais_data]: the last path elements of the
    files directly under it. *)
Definition dirNames (fs : gmap string PFile) : list string :=
  omap (fun path =>
          match stripPrefix "ais_data/" path with
          | Some name => if hasSeparator name then None else Some name
          | None => None
          end) (elements (dom fs)).

(** [filepath.Glob] for a pattern whose directory part is the literal
    [ais_data] and whose file part holds a wildcard: the names of the
    directory are read, sorted, matched against the file part and joined to
    the directory again. Errors of the file system yield no match. *)
Definition Glob (fs : gmap string PFile) (pattern : string) : list string :=
  match stripPrefix "ais_data/" pattern with
  | Some file =>
      (fun name => "ais_data/" +:+ name) <$>
        filter (fun name => Match file name) (merge_sort String.le (dirNames fs))
  | None => []
  end.

Definition globPattern (d : Time) : string :=
  "ais_data/" +:+ FormatDate 0 d +:+ "_*.parquet".

(** The loop of [getFilePaths], with the patterns handed to [Glob] recorded
    next to the files found. *)
Fixpoint getFilePaths_loop (fuel : nat) (fs : gmap string PFile) (d stop : Time)
  : list string * list string :=
  match fuel with
  | O => ([], [])
  | S fuel' =>
      if After d stop then ([], [])
      else
        let pattern := globPattern d in
        let matches := Glob fs pattern in
        let '(files, globbed) := getFilePaths_loop fuel' fs (AddDay d) stop in
        ((matches ++ files)%list, pattern :: globbed)
  end.

(** [getFilePaths]: both parse errors are dropped, leaving the zero time. *)
Definition getFilePaths (fs : gmap string PFile) (from to : string)
  : list string * list string :=
  let start := default zeroTime (ParseDate from) in
  let stop := default zeroTime (ParseDate to) in
  getFilePaths_loop (Z.to_nat ((stop - start) / secondsPerDay + 1)) fs start stop.

Definition StatusBadRequest : Z := 400.
Definition StatusNotFound : Z := 404.

(** What the middleware does with the request: abort it with a JSON error,
    or store the range and the files in the context and call the handler. *)
Inductive Response : Type :=
  | Abort (status : Z) (error : string)
  | Next (from to : Time) (files : list string).

Definition noDataResponse : Response :=
  Abort StatusNotFound "No data available for the requested period".

(** [middlewareDateRange]; [qfrom] and [qto] are the query parameters, when
    present. The second component lists the patterns globbed meanwhile. *)
Definition middlewareDateRange (fs : gmap string PFile) (now : Time)
    (qfrom qto : option string) : Response * list string :=
  let fromStr := default (FormatDate 0 now) qfrom in
  let toStr := default fromStr qto in
  match ParseDate fromStr with
  | None =>
      (Abort StatusBadRequest "Invalid 'from' date format (expected YYYY-MM-DD)", [])
  | Some from =>
      match ParseDate toStr with
      | None =>
          (Abort StatusBadRequest "Invalid 'to' date format (expected YYYY-MM-DD)", [])
      | Some to =>
          let '(files, globbed) := getFilePaths fs fromStr toStr in
          if (length files =? 0)%nat then (noDataResponse, globbed)
          else (Next from to files, globbed)
      end
  end.

End API.

(** ** Statements about the flush, as the specification words them *)

Module Claims.
Import GoTime GoLib Collector API.

(** The partition write of a flush fails: the file writer could not be
    created, the Parquet writer could not be initialized, or the file could
    not be finalized. *)
Definition flushFailed (env : FlushEnv) : Prop :=
  createOK env = false \/ initOK env = false \/ stopOK env = false.

(** The specification's reading of a failed flush: the captured records are
    gone from the buffer afterwards. *)
Definition discardsOnFailure (env : FlushEnv) (w : World) : Prop :=
  flushFailed env ->
  aisRecords (saveToParquet env w) = [] /\ recordCount (saveToParquet env w) = 0.



(** An environment in which every library call of a flush succeeds. *)
Definition flushSucceeds (env : FlushEnv) : Prop :=
  createOK env = true /\ initOK env = true /\ stopOK env = true
  /\ forall rec, writeOK env rec = true.

(** The buffer invariant. *)
Definition countMatches (w : World) : Prop :=
  recordCount w = Z.of_nat (length (aisRecords w)).

Section WithDecoder.
Variable json_Unmarshal : string -> option (gmap string JValue).

(** The key under which [handleAISMessage] buffers a message, if it does. *)
Definition decodeKey (message : string) : option string :=
  match json_Unmarshal message with
  | None => None
  | Some data =>
      if bool_decide (extractMMSI data = "") then None else Some (extractMMSI data)
  end.


End WithDecoder.

(** The record [handleAISMessage] builds for a message read at [now]. *)
Definition recordOf (json_Unmarshal : string -> option (gmap string JValue))
    (now : Time) (message : string) : option AISRecord :=
  (fun key => mkAISRecord (FormatRFC3339UTC now) key message)
    <$> decodeKey json_Unmarshal message.

(** A payload that occurs neither in the buffer nor in any file. *)
Definition payloadAbsent (message : string) (w : World) : Prop :=
  (forall rec, rec ∈ aisRecords w -> RawJSON rec <> message)
  /\ (forall path file rec,
        fs w !! path = Some file -> rec ∈ rows file -> RawJSON rec <> message).

(** Number of times [saveToParquet] was entered, read off the log. *)
Definition flushCount (w : World) : nat :=
  length (filter (fun line => line = LogLocking) (logs w)).

(** A stand-in for [json.Unmarshal] that knows three payloads: a position
    report, a static-data report carrying an identifier elsewhere, and a
    document without a message. *)
Definition positionReport : gmap string JValue :=
  {[ "Message" := JObject {[ "PositionReport" :=
       JObject {[ "UserID" := JNumber 111111111%float ]} ]} ]}.
Definition staticDataReport : gmap string JValue :=
  {[ "Message" := JObject {[ "ShipStaticData" :=
       JObject {[ "UserID" := JNumber 222222222%float ]} ]} ]}.
Definition sampleDecoder (message : string) : option (gmap string JValue) :=
  if bool_decide (message = "position") then Some positionReport
  else if bool_decide (message = "static") then Some staticDataReport
  else if bool_decide (message = "empty") then Some ∅
  else None.

(** A run of messages only, each with the clock read for its record and the
    environment a flush triggered by it would meet. *)
Definition messageEvents (inputs : list (Time * string * FlushEnv)) : list Event :=
  (fun input => EvMessage input.1.1 input.1.2 input.2) <$> inputs.

Definition recordsOf (json_Unmarshal : string -> option (gmap string JValue))
    (inputs : list (Time * string * FlushEnv)) : list AISRecord :=
  omap (fun input => recordOf json_Unmarshal input.1.1 input.1.2) inputs.

(** Concrete inputs used below. *)
Definition rec1 : AISRecord :=
  mkAISRecord "2023-09-01T12:00:00Z" "111111111" "{1}".
Definition rec2 : AISRecord :=
  mkAISRecord "2023-09-01T12:00:01Z" "222222222" "{2}".
Definition twoRecords : World := mkWorld [rec1; rec2] 2 0 ∅ [].

Definition envOK : FlushEnv :=
  mkFlushEnv 1693569600 0 true true (fun _ => true) true true.
Definition envNoCreate : FlushEnv :=
  mkFlushEnv 1693569600 0 false true (fun _ => true) true true.

End Claims.

(** ** Notions used to state further properties of the code *)

Module Notions.
Import GoTime GoLib Collector API.

(** Names never go backwards as time goes on. *)
Definition namesMonotone (offset : Z) (t1 t2 : Time) : Prop :=
  t1 <= t2 -> (getNewFilePath offset t1 ≤ getNewFilePath offset t2)%string.

(** Combining the comparison of a leading field with that of the rest. *)
Definition lexCompare (c rest : comparison) : comparison :=
  match c with Eq => rest | _ => c end.

(** A date of the four-digit range. *)
Definition fourDigitCivil (c : Z * Z * Z) : Prop :=
  0 <= c.1.1 <= 9999 /\ validCivil c.

End Notions.

(** * Properties *)

(** ** The flush *)

Module FlushFacts.
Import GoTime GoLib Collector Claims.

Lemma writeRecords_written ok recs w :
  (writeRecords ok recs w).1 = filter (fun rec => ok rec) recs.
Proof.
  revert w. induction recs as [|rec recs IH]; intros w; [done|].
  cbn [writeRecords]. destruct (ok rec) eqn:Hok.
  - rewrite filter_cons_True by (by apply Is_true_true).
    specialize (IH w). destruct (writeRecords ok recs w) as [written w'].
    simpl in *. by f_equal.
  - rewrite filter_cons_False by (by apply Is_true_false). apply IH.
Qed.

Lemma writeRecords_state ok recs w :
  let w' := (writeRecords ok recs w).2 in
  aisRecords w' = aisRecords w /\ recordCount w' = recordCount w
  /\ lastLogPercent w' = lastLogPercent w /\ fs w' = fs w.
Proof.
  revert w. induction recs as [|rec recs IH]; intros w; simpl; [done|].
  destruct (ok rec).
  - specialize (IH w). destruct (writeRecords ok recs w) as [written w']. exact IH.
  - destruct (IH (addLog LogWriteError w)) as (? & ? & ? & ?). done.
Qed.

Lemma filter_all_true (ok : AISRecord -> bool) (recs : list AISRecord) :
  (forall rec, ok rec = true) -> filter (fun rec => ok rec) recs = recs.
Proof.
  intros Hok. induction recs as [|rec recs IH]; [done|].
  rewrite filter_cons_True by (by apply Is_true_true). by f_equal.
Qed.

(** A flush that meets no failing library call writes the accepted records
    to the new path, finalizes the file and empties the buffer. *)
Lemma saveToParquet_written env w :
  recordCount w <> 0 ->
  createOK env = true -> initOK env = true -> stopOK env = true ->
  let path := getNewFilePath (localOffset env) (flushNow env) in
  let w' := saveToParquet env w in
  fs w' = <[path := mkPFile (filter (fun rec => writeOK env rec) (aisRecords w)) true]> (fs w)
  /\ aisRecords w' = [] /\ recordCount w' = 0
  /\ lastLogPercent w' = lastLogPercent w.
Proof.
  intros Hn Hc Hi Hs. unfold saveToParquet. simpl.
  apply Z.eqb_neq in Hn. rewrite Hn, Hc, Hi. simpl.
  match goal with |- context [writeRecords ?ok ?recs ?w0] =>
    pose proof (writeRecords_written ok recs w0) as Hw;
    pose proof (writeRecords_state ok recs w0) as (Ha & Hr & Hl & Hf);
    destruct (writeRecords ok recs w0) as [written w1] end.
  simpl in *. rewrite Hs. simpl. subst written. rewrite Hf, Hl. simpl.
  by rewrite !insert_insert_eq.
Qed.

(** A flush whose partition write fails leaves the buffer as it was. *)
Lemma saveToParquet_failed env w :
  flushFailed env ->
  aisRecords (saveToParquet env w) = aisRecords w
  /\ recordCount (saveToParquet env w) = recordCount w
  /\ lastLogPercent (saveToParquet env w) = lastLogPercent w.
Proof.
  intros Hfail. unfold saveToParquet. simpl.
  destruct (recordCount w =? 0); [done|].
  destruct (createOK env) eqn:Hc; simpl; [|done].
  destruct (initOK env) eqn:Hi; simpl; [|done].
  match goal with |- context [writeRecords ?ok ?recs ?w0] =>
    pose proof (writeRecords_state ok recs w0) as (Ha & Hr & Hl & Hf);
    destruct (writeRecords ok recs w0) as [written w1] end.
  simpl in *.
  destruct (stopOK env) eqn:Hs; simpl; [|done].
  destruct Hfail as [?|[?|?]]; congruence.
Qed.

(** C9. A flush called while the buffer is empty (count = 0) is a no-op: no
    file is created, the file system is unchanged, and the record sequence,
    the count and the progress marker are unchanged; only the two log lines
    of the skipped write are added. *)
Theorem flush_empty_is_noop env w :
  recordCount w = 0 ->
  fs (saveToParquet env w) = fs w
  /\ aisRecords (saveToParquet env w) = aisRecords w
  /\ recordCount (saveToParquet env w) = recordCount w
  /\ lastLogPercent (saveToParquet env w) = lastLogPercent w
  /\ logs (saveToParquet env w) = (logs w ++ [LogLocking; LogNoData])%list.
Proof.
  intros H0. unfold saveToParquet. simpl. rewrite H0. simpl.
  by rewrite <- app_assoc.
Qed.

Lemma flush_empty_is_noop_witness :
  fs (saveToParquet envOK (initWorld ∅)) = ∅
  /\ aisRecords (saveToParquet envOK (initWorld ∅)) = []
  /\ recordCount (saveToParquet envOK (initWorld ∅)) = 0
  /\ lastLogPercent (saveToParquet envOK (initWorld ∅)) = 0
  /\ logs (saveToParquet envOK (initWorld ∅)) = [LogLocking; LogNoData].
Proof. apply (flush_empty_is_noop envOK (initWorld ∅)). reflexivity. Defined.

(** C2, as stated, fails: when the file writer cannot be created, the two
    buffered records are still in the buffer after the flush returns. *)
Lemma failed_flush_keeps_records : ~ discardsOnFailure envNoCreate twoRecords.
Proof.
  intros H. destruct H as [Hrec _]; [by left|]. vm_compute in Hrec. discriminate.
Qed.

(** C2, amended. A flush whose partition write fails (file-writer creation,
    writer initialization or finalization) leaves the buffer as it was: the
    records and the count are retained, and the next flush that succeeds
    writes those same records; the state is reset only after a successful
    save. *)
Theorem failed_flush_retains_buffer env env' w :
  flushFailed env -> recordCount w <> 0 -> flushSucceeds env' ->
  aisRecords (saveToParquet env w) = aisRecords w
  /\ recordCount (saveToParquet env w) = recordCount w
  /\ fs (saveToParquet env' (saveToParquet env w))
       !! getNewFilePath (localOffset env') (flushNow env')
     = Some (mkPFile (aisRecords w) true).
Proof.
  intros Hfail Hn (Hc & Hi & Hs & Hw).
  destruct (saveToParquet_failed env w Hfail) as (Ha & Hr & _).
  split; [done|]. split; [done|].
  destruct (saveToParquet_written env' (saveToParquet env w)) as (Hfs & _);
    [congruence|done..|].
  rewrite Hfs, lookup_insert_eq, Ha. by rewrite filter_all_true.
Qed.

Lemma failed_flush_retains_buffer_witness :
  aisRecords (saveToParquet envNoCreate twoRecords) = [rec1; rec2]
  /\ recordCount (saveToParquet envNoCreate twoRecords) = 2
  /\ fs (saveToParquet envOK (saveToParquet envNoCreate twoRecords))
       !! getNewFilePath 0 1693569600
     = Some (mkPFile [rec1; rec2] true).
Proof.
  apply (failed_flush_retains_buffer envNoCreate envOK twoRecords).
  - left. reflexivity.
  - vm_compute. discriminate.
  - repeat split; reflexivity.
Defined.




End FlushFacts.

(** ** The buffer *)

Module BufferFacts.
Import GoTime GoLib Collector Claims FlushFacts.

Lemma wrap_int_small x : - 2 ^ 63 <= x < 2 ^ 63 -> wrap_int x = x.
Proof. intros H. unfold wrap_int. rewrite Z.mod_small; lia. Qed.

Lemma logProgress_state w :
  aisRecords (logProgress w) = aisRecords w
  /\ recordCount (logProgress w) = recordCount w
  /\ fs (logProgress w) = fs w.
Proof. unfold logProgress. by destruct (negb _). Qed.

Lemma logProgress_flushCount w : flushCount (logProgress w) = flushCount w.
Proof.
  unfold logProgress, flushCount. destruct (negb _); [|done]. simpl.
  rewrite filter_app, filter_cons_False, filter_nil, app_nil_r by done. done.
Qed.

(** A flush either leaves the buffer alone or empties it. *)
Lemma saveToParquet_buffer env w :
  (aisRecords (saveToParquet env w) = aisRecords w
   /\ recordCount (saveToParquet env w) = recordCount w)
  \/ (aisRecords (saveToParquet env w) = [] /\ recordCount (saveToParquet env w) = 0).
Proof.
  unfold saveToParquet. simpl.
  destruct (recordCount w =? 0); [by left|].
  destruct (createOK env); simpl; [|by left].
  destruct (initOK env); simpl; [|by left].
  match goal with |- context [writeRecords ?ok ?recs ?w0] =>
    pose proof (writeRecords_state ok recs w0) as (Ha & Hr & Hl & Hf);
    destruct (writeRecords ok recs w0) as [written w1] end.
  simpl in *. destruct (stopOK env); simpl; [by right|by left].
Qed.

(** The rows of a file found after a flush were there before, or were
    buffered when the flush began. *)
Lemma saveToParquet_rows env w path file rec :
  fs (saveToParquet env w) !! path = Some file -> rec ∈ rows file ->
  (fs w !! path = Some file) \/ rec ∈ aisRecords w.
Proof.
  unfold saveToParquet. simpl.
  destruct (recordCount w =? 0); [by left|].
  destruct (createOK env); simpl; [|by left].
  assert (Hins : forall written (m : gmap string PFile) p,
            (forall r, r ∈ written -> r ∈ aisRecords w) ->
            <[p := mkPFile written false]> m !! path = Some file \/
            <[p := mkPFile written true]> m !! path = Some file ->
            rec ∈ rows file -> m !! path = Some file \/ rec ∈ aisRecords w).
  { intros written m p Hsub Hl Hin.
    destruct (decide (p = path)) as [->|Hne].
    - rewrite !lookup_insert_eq in Hl. right. apply Hsub.
      destruct Hl as [Hl|Hl]; inversion Hl; subst; exact Hin.
    - rewrite !lookup_insert_ne in Hl by done. left. tauto. }
  destruct (initOK env); simpl.
  - match goal with |- context [writeRecords ?ok ?recs ?w0] =>
      pose proof (writeRecords_written ok recs w0) as Hw;
      pose proof (writeRecords_state ok recs w0) as (Ha & Hr & Hl & Hf);
      destruct (writeRecords ok recs w0) as [written w1] end.
    simpl in *. rewrite Hf.
    assert (Hsub : forall r, r ∈ written -> r ∈ aisRecords w).
    { intros r. rewrite Hw. rewrite list_elem_of_filter. tauto. }
    assert (Hnil : forall r : AISRecord, r ∈ [] -> r ∈ aisRecords w) by set_solver.
    destruct (stopOK env); simpl; intros Hl' Hin.
    + rewrite insert_insert_eq in Hl'.
      destruct (Hins written _ _ Hsub (or_intror Hl') Hin) as [H1|H1]; [|by right].
      rewrite ?Hf in H1. exact (Hins [] _ _ Hnil (or_introl H1) Hin).
    + destruct (Hins written _ _ Hsub (or_introl Hl') Hin) as [H1|H1]; [|by right].
      rewrite ?Hf in H1. exact (Hins [] _ _ Hnil (or_introl H1) Hin).
  - intros Hl' Hin.
    assert (Hnil : forall r : AISRecord, r ∈ [] -> r ∈ aisRecords w) by set_solver.
    exact (Hins [] _ _ Hnil (or_introl Hl') Hin).
Qed.

Lemma countMatches_atomic w a :
  countMatches w -> Z.of_nat (length (aisRecords w)) + 1 < 2 ^ 63 ->
  countMatches (atomicStep w a)
  /\ (length (aisRecords (atomicStep w a)) <= S (length (aisRecords w)))%nat.
Proof.
  unfold countMatches. intros Hinv Hlen. destruct a as [record| |env|env]; simpl.
  - rewrite length_app. simpl. rewrite wrap_int_small by lia. lia.
  - destruct (logProgress_state w) as (-> & -> & _). lia.
  - unfold autoFlush. destruct (MaxRecordsPerFile <=? recordCount w); [|lia].
    destruct (saveToParquet_buffer env w) as [[-> ->]|[-> ->]]; simpl; lia.
  - destruct (saveToParquet_buffer env w) as [[-> ->]|[-> ->]]; simpl; lia.
Qed.

Lemma countMatches_trace trace : forall w (k : nat),
  countMatches w -> (length (aisRecords w) <= k)%nat ->
  Z.of_nat (k + length trace) < 2 ^ 63 ->
  countMatches (fold_left atomicStep trace w).
Proof.
  induction trace as [|a trace IH]; intros w k Hinv Hk Hlen; simpl; [done|].
  simpl in Hlen.
  destruct (countMatches_atomic w a Hinv) as [Hinv' Hk']; [lia|].
  apply (IH _ (S k)); [done|lia|lia].
Qed.

Section WithDecoder.
Variable json_Unmarshal : string -> option (gmap string JValue).

Lemma handle_decoded now message env w key :
  decodeKey json_Unmarshal message = Some key ->
  handleAISMessage json_Unmarshal now message env w
  = autoFlush env (logProgress
      (appendRecord (mkAISRecord (FormatRFC3339UTC now) key message) w)).
Proof.
  unfold decodeKey, handleAISMessage.
  destruct (json_Unmarshal message) as [data|]; [|done].
  destruct (bool_decide (extractMMSI data = "")); [done|]. by intros [= <-].
Qed.

Lemma handle_dropped now message env w :
  decodeKey json_Unmarshal message = None ->
  handleAISMessage json_Unmarshal now message env w = w
  \/ handleAISMessage json_Unmarshal now message env w = addLog LogJSONParseError w.
Proof.
  unfold decodeKey, handleAISMessage.
  destruct (json_Unmarshal message) as [data|]; [|by right].
  destruct (bool_decide (extractMMSI data = "")); [by left|done].
Qed.

(** One message as a sequence of atomic stretches. *)
Lemma handle_as_trace now message env w :
  exists trace, (length trace <= 3)%nat
    /\ (handleAISMessage json_Unmarshal now message env w = fold_left atomicStep trace w
        \/ handleAISMessage json_Unmarshal now message env w
           = addLog LogJSONParseError (fold_left atomicStep trace w)).
Proof.
  destruct (decodeKey json_Unmarshal message) as [key|] eqn:Hk.
  - exists [AtAppend (mkAISRecord (FormatRFC3339UTC now) key message);
            AtProgress; AtCapacity env].
    split; [simpl; lia|]. left. by rewrite (handle_decoded _ _ _ _ key).
  - exists []. split; [simpl; lia|]. simpl. by apply handle_dropped.
Qed.

Lemma countMatches_step w ev :
  countMatches w -> Z.of_nat (length (aisRecords w)) + 1 < 2 ^ 63 ->
  countMatches (step json_Unmarshal w ev)
  /\ (length (aisRecords (step json_Unmarshal w ev)) <= S (length (aisRecords w)))%nat.
Proof.
  intros Hinv Hlen. destruct ev as [now message env|env]; simpl.
  - destruct (decodeKey json_Unmarshal message) as [key|] eqn:Hk.
    + rewrite (handle_decoded _ _ _ _ key Hk).
      set (w1 := appendRecord _ w).
      pose proof (countMatches_atomic w
        (AtAppend (mkAISRecord (FormatRFC3339UTC now) key message)) Hinv Hlen) as [H1 L1].
      change (atomicStep w (AtAppend _)) with w1 in H1, L1.
      assert (H2 : countMatches (logProgress w1)
                   /\ length (aisRecords (logProgress w1)) = length (aisRecords w1)).
      { unfold countMatches. destruct (logProgress_state w1) as (-> & -> & _). done. }
      destruct H2 as [H2 L2].
      unfold autoFlush. destruct (MaxRecordsPerFile <=? _); [|split; [done|lia]].
      unfold countMatches in *.
      destruct (saveToParquet_buffer env (logProgress w1)) as [[-> ->]|[-> ->]];
        simpl; split; lia.
    + destruct (handle_dropped now message env w Hk) as [-> | ->]; simpl; split; (done || lia).
  - apply (countMatches_atomic w (AtFlush env) Hinv Hlen).
Qed.

Lemma countMatches_run evs : forall w (k : nat),
  countMatches w -> (length (aisRecords w) <= k)%nat ->
  Z.of_nat (k + length evs) < 2 ^ 63 ->
  countMatches (run json_Unmarshal evs w).
Proof.
  unfold run. induction evs as [|ev evs IH]; intros w k Hinv Hk Hlen; simpl; [done|].
  simpl in Hlen.
  destruct (countMatches_step w ev Hinv) as [Hinv' Hk']; [lia|].
  apply (IH _ (S k)); [done|lia|lia].
Qed.

End WithDecoder.

(** C7. [recordCount] equals the length of [aisRecords] at every point
    outside a critical section: it holds initially; every stretch of code
    between two such points (the append, the progress log, the capacity check
    with its flush, the timer flush) preserves it; hence it holds after every
    interleaving of such stretches, and after every run of messages and
    ticks. The length bound states that the slice length fits Go's [int]. *)
Theorem count_equals_length :
  (forall files, countMatches (initWorld files))
  /\ (forall w a, countMatches w -> Z.of_nat (length (aisRecords w)) + 1 < 2 ^ 63 ->
       countMatches (atomicStep w a))
  /\ (forall files trace, Z.of_nat (length trace) < 2 ^ 63 ->
       countMatches (fold_left atomicStep trace (initWorld files)))
  /\ (forall json_Unmarshal files evs, Z.of_nat (length evs) < 2 ^ 63 ->
       countMatches (run json_Unmarshal evs (initWorld files))).
Proof.
  split; [done|]. split; [|split].
  - intros w a Hinv Hlen. by apply countMatches_atomic.
  - intros files trace Hlen. by apply (countMatches_trace trace _ 0%nat).
  - intros dec files evs Hlen. by apply (countMatches_run dec evs _ 0%nat).
Qed.

Lemma count_equals_length_witness :
  countMatches (atomicStep twoRecords (AtAppend rec1))
  /\ countMatches (fold_left atomicStep [AtAppend rec1; AtProgress; AtFlush envOK] (initWorld ∅))
  /\ countMatches (run sampleDecoder [EvMessage 0 "position" envOK; EvTick envNoCreate] (initWorld ∅)).
Proof.
  destruct count_equals_length as (_ & Hstep & Htrace & Hrun).
  split; [|split].
  - apply Hstep; [reflexivity | vm_compute; reflexivity].
  - apply Htrace. vm_compute. reflexivity.
  - apply Hrun. vm_compute. reflexivity.
Defined.

End BufferFacts.

(** ** Ingestion *)

Module IngestFacts.
Import GoTime GoLib Collector Claims FlushFacts BufferFacts.









Section WithDecoder.
Variable json_Unmarshal : string -> option (gmap string JValue).




Lemma decodeKey_None message :
  decodeKey json_Unmarshal message = None <->
  json_Unmarshal message = None
  \/ exists data, json_Unmarshal message = Some data /\ extractMMSI data = "".
Proof.
  unfold decodeKey. destruct (json_Unmarshal message) as [data|]; [|by intuition].
  case_bool_decide as He; split; try done.
  - intros _. right. by exists data.
  - intros [?|(d & [= <-] & ?)]; done.
Qed.

Lemma handle_dropped_state now message env w :
  decodeKey json_Unmarshal message = None ->
  let w' := handleAISMessage json_Unmarshal now message env w in
  aisRecords w' = aisRecords w /\ recordCount w' = recordCount w
  /\ lastLogPercent w' = lastLogPercent w /\ fs w' = fs w.
Proof.
  intros Hk. by destruct (handle_dropped json_Unmarshal now message env w Hk) as [-> | ->].
Qed.

Lemma payloadAbsent_flush message env w :
  payloadAbsent message w -> payloadAbsent message (saveToParquet env w).
Proof.
  intros [Hbuf Hfiles]. split.
  - destruct (saveToParquet_buffer env w) as [[-> _]|[-> _]]; [done|set_solver].
  - intros path file rec Hl Hin.
    destruct (saveToParquet_rows env w path file rec Hl Hin) as [Hold|Hb].
    + by apply (Hfiles path file).
    + by apply Hbuf.
Qed.

Lemma payloadAbsent_step message w ev :
  decodeKey json_Unmarshal message = None ->
  payloadAbsent message w -> payloadAbsent message (step json_Unmarshal w ev).
Proof.
  intros Hnone Habs. destruct ev as [now m env|env]; simpl;
    [|by apply payloadAbsent_flush].
  destruct (decodeKey json_Unmarshal m) as [key|] eqn:Hk.
  - rewrite (handle_decoded _ _ _ _ _ key Hk).
    assert (Hne : m <> message) by congruence.
    set (w1 := appendRecord _ w).
    assert (H1 : payloadAbsent message (logProgress w1)).
    { destruct Habs as [Hbuf Hfiles].
      destruct (logProgress_state w1) as (Ha & _ & Hf).
      split; [rewrite Ha|rewrite Hf]; [|exact Hfiles].
      intros rec Hin. unfold w1 in Hin. simpl in Hin.
      apply elem_of_app in Hin as [Hin|Hin]; [by apply Hbuf|].
      apply list_elem_of_singleton in Hin. by subst rec. }
    unfold autoFlush. destruct (MaxRecordsPerFile <=? _); [|done].
    by apply payloadAbsent_flush.
  - destruct (handle_dropped_state now m env w Hk) as (Ha & _ & _ & Hf).
    destruct Habs as [Hbuf Hfiles]. split; [rewrite Ha|rewrite Hf]; done.
Qed.

Lemma payloadAbsent_run message evs : forall w,
  decodeKey json_Unmarshal message = None ->
  payloadAbsent message w -> payloadAbsent message (run json_Unmarshal evs w).
Proof.
  unfold run. induction evs as [|ev evs IH]; intros w Hnone Habs; simpl; [done|].
  apply IH; [done|]. by apply payloadAbsent_step.
Qed.

End WithDecoder.

(** C6. A message whose payload is not valid JSON, or from which no
    identifier can be extracted, is dropped: handling it leaves the record
    sequence, the count, the progress marker and the files as they were (no
    record is appended, the count is not incremented), and in every run of
    messages and ticks the payload never enters the buffer nor any file it
    was not in before. *)
Theorem undecodable_message_is_dropped json_Unmarshal message :
  (json_Unmarshal message = None
   \/ exists data, json_Unmarshal message = Some data /\ extractMMSI data = "") ->
  (forall now env w,
     aisRecords (handleAISMessage json_Unmarshal now message env w) = aisRecords w
     /\ recordCount (handleAISMessage json_Unmarshal now message env w) = recordCount w
     /\ lastLogPercent (handleAISMessage json_Unmarshal now message env w) = lastLogPercent w
     /\ fs (handleAISMessage json_Unmarshal now message env w) = fs w)
  /\ (forall evs w,
       payloadAbsent message w -> payloadAbsent message (run json_Unmarshal evs w)).
Proof.
  intros Hfail. apply decodeKey_None in Hfail. split.
  - intros now env w. by apply handle_dropped_state.
  - intros evs w. by apply payloadAbsent_run.
Qed.

Lemma undecodable_message_is_dropped_witness :
  (forall now env w,
     aisRecords (handleAISMessage sampleDecoder now "static" env w) = aisRecords w
     /\ recordCount (handleAISMessage sampleDecoder now "static" env w) = recordCount w
     /\ lastLogPercent (handleAISMessage sampleDecoder now "static" env w) = lastLogPercent w
     /\ fs (handleAISMessage sampleDecoder now "static" env w) = fs w)
  /\ (forall evs w,
       payloadAbsent "static" w -> payloadAbsent "static" (run sampleDecoder evs w)).
Proof.
  apply (undecodable_message_is_dropped sampleDecoder "static").
  right. exists staticDataReport. split; vm_compute; reflexivity.
Defined.



(** *** The capacity trigger *)

Lemma flushCount_addLog line w :
  flushCount (addLog line w)
  = (flushCount w + (if decide (line = LogLocking) then 1 else 0))%nat.
Proof.
  unfold flushCount, addLog. simpl. rewrite filter_app, length_app. f_equal.
  destruct (decide (line = LogLocking)) as [->|Hne].
  - by rewrite filter_cons_True.
  - by rewrite filter_cons_False.
Qed.

Lemma flushCount_writeRecords ok recs : forall w,
  flushCount (writeRecords ok recs w).2 = flushCount w.
Proof.
  induction recs as [|rec recs IH]; intros w; simpl; [done|].
  destruct (ok rec).
  - specialize (IH w). by destruct (writeRecords ok recs w).
  - rewrite IH, flushCount_addLog. simpl. lia.
Qed.

(** Every call of [saveToParquet] shows as one more flush in the log. *)
Lemma flushCount_saveToParquet env w :
  flushCount (saveToParquet env w) = S (flushCount w).
Proof.
  assert (Hset : forall p f w0, flushCount (setFile p f w0) = flushCount w0) by done.
  unfold saveToParquet.
  destruct (recordCount (addLog LogLocking w) =? 0).
  { rewrite !flushCount_addLog. simpl. lia. }
  destruct (createOK env); simpl negb; cbv iota.
  2:{ rewrite !flushCount_addLog. simpl. lia. }
  destruct (initOK env); simpl negb; cbv iota.
  2:{ rewrite flushCount_addLog, Hset, !flushCount_addLog. simpl. lia. }
  match goal with |- context [writeRecords ?ok ?recs ?w0] =>
    pose proof (flushCount_writeRecords ok recs w0) as Hw;
    destruct (writeRecords ok recs w0) as [written w1] end.
  simpl in Hw. rewrite Hset, !flushCount_addLog in Hw.
  destruct (stopOK env); simpl negb; cbv iota.
  - rewrite flushCount_addLog.
    match goal with |- context [flushCount (mkWorld [] 0 _ _ (logs ?w2))] =>
      change (flushCount (mkWorld [] 0 (lastLogPercent w2) (fs w2) (logs w2)))
        with (flushCount w2) end.
    rewrite !flushCount_addLog, !Hset, Hw. destruct (statOK env); simpl; lia.
  - rewrite flushCount_addLog, !Hset, Hw. simpl. lia.
Qed.

Section WithDecoder.
Variable json_Unmarshal : string -> option (gmap string JValue).

Definition decodable (input : Time * string * FlushEnv) : Prop :=
  is_Some (decodeKey json_Unmarshal input.1.2).

Lemma recordsOf_cons input inputs key :
  decodeKey json_Unmarshal input.1.2 = Some key ->
  recordsOf json_Unmarshal (input :: inputs)
  = mkAISRecord (FormatRFC3339UTC input.1.1) key input.1.2
      :: recordsOf json_Unmarshal inputs.
Proof.
  intros Hk. unfold recordsOf. cbn [omap list_omap]. unfold recordOf at 1.
  by rewrite Hk.
Qed.

Lemma recordsOf_app inputs1 inputs2 :
  recordsOf json_Unmarshal (inputs1 ++ inputs2)
  = (recordsOf json_Unmarshal inputs1 ++ recordsOf json_Unmarshal inputs2)%list.
Proof. apply omap_app. Qed.

Lemma recordsOf_length inputs :
  Forall decodable inputs -> length (recordsOf json_Unmarshal inputs) = length inputs.
Proof.
  induction 1 as [|input inputs [key Hk] _ IH]; [done|].
  rewrite (recordsOf_cons _ _ key Hk). simpl. by f_equal.
Qed.

(** Below the threshold, decodable messages only accumulate. *)
Lemma run_below_capacity inputs : forall w,
  countMatches w ->
  Z.of_nat (length (aisRecords w) + length inputs) < MaxRecordsPerFile ->
  Forall decodable inputs ->
  let w' := run json_Unmarshal (messageEvents inputs) w in
  aisRecords w' = (aisRecords w ++ recordsOf json_Unmarshal inputs)%list
  /\ countMatches w' /\ fs w' = fs w /\ flushCount w' = flushCount w.
Proof.
  unfold run.
  induction inputs as [|input inputs IH]; intros w Hinv Hlt Hdec.
  { simpl. by rewrite app_nil_r. }
  apply Forall_cons in Hdec as [[key Hk] Hdec]. simpl in Hlt.
  rewrite (recordsOf_cons input inputs key Hk). simpl.
  rewrite (handle_decoded _ _ _ _ _ key Hk).
  set (rec := mkAISRecord (FormatRFC3339UTC input.1.1) key input.1.2).
  set (w1 := appendRecord rec w).
  assert (Hmax : MaxRecordsPerFile = 100000) by reflexivity.
  assert (H1 : countMatches w1).
  { unfold countMatches, w1 in *. simpl. rewrite length_app. simpl.
    rewrite wrap_int_small by lia. lia. }
  destruct (logProgress_state w1) as (Ha & Hr & Hf).
  assert (Hno : autoFlush (input.2) (logProgress w1) = logProgress w1).
  { unfold autoFlush. rewrite Hr. unfold countMatches in H1. rewrite H1.
    unfold w1. simpl. rewrite length_app. simpl.
    destruct (MaxRecordsPerFile <=? _) eqn:Hle; [apply Z.leb_le in Hle; lia|done]. }
  rewrite Hno.
  destruct (IH (logProgress w1)) as (Ha' & Hinv' & Hf' & Hc').
  - unfold countMatches. rewrite Ha, Hr. exact H1.
  - rewrite Ha. unfold w1. simpl. rewrite length_app. simpl. lia.
  - exact Hdec.
  - rewrite Ha', Hf', Hc', Ha, Hf, logProgress_flushCount. unfold w1. simpl.
    split; [|done].
    by rewrite <- app_assoc.
Qed.

End WithDecoder.

(** C4. Appending exactly [MaxRecordsPerFile] decodable messages to the
    empty buffer, with no timer flush in between and with a flush that meets
    no failing library call, enters [saveToParquet] exactly once, in the
    handling of the last message: afterwards the buffer is empty, the count is
    zero, and the file system differs from the initial one by exactly one
    file, at the path named after the time of that flush, finalized and
    holding the [MaxRecordsPerFile] records in arrival order. *)
Theorem capacity_trigger_writes_one_partition json_Unmarshal files inputs now message env :
  Z.of_nat (length inputs) + 1 = MaxRecordsPerFile ->
  Forall (decodable json_Unmarshal) (inputs ++ [(now, message, env)]) ->
  flushSucceeds env ->
  let w' := run json_Unmarshal (messageEvents (inputs ++ [(now, message, env)]))
              (initWorld files) in
  aisRecords w' = [] /\ recordCount w' = 0
  /\ fs w' = <[getNewFilePath (localOffset env) (flushNow env) :=
               mkPFile (recordsOf json_Unmarshal (inputs ++ [(now, message, env)])) true]> files
  /\ Z.of_nat (length (recordsOf json_Unmarshal (inputs ++ [(now, message, env)])))
     = MaxRecordsPerFile
  /\ flushCount w' = 1%nat.
Proof.
  intros Hlen Hdec (Hc & Hi & Hs & Hw). simpl.
  pose proof (recordsOf_length json_Unmarshal _ Hdec) as Hrl.
  apply Forall_app in Hdec as [Hpre Hlast].
  apply Forall_cons in Hlast as [[key Hk] _]. simpl in Hk.
  unfold messageEvents, run. rewrite fmap_app, fold_left_app. simpl.
  fold (messageEvents inputs). fold (run json_Unmarshal (messageEvents inputs) (initWorld files)).
  destruct (run_below_capacity json_Unmarshal inputs (initWorld files))
    as (Ha & Hinv & Hf & Hfc); [done|simpl; lia|done|].
  simpl in Ha, Hf. set (w0 := run json_Unmarshal (messageEvents inputs) (initWorld files)) in *.
  rewrite (handle_decoded _ _ _ _ _ key Hk).
  set (rec := mkAISRecord (FormatRFC3339UTC now) key message).
  set (w1 := appendRecord rec w0).
  pose proof (recordsOf_length json_Unmarshal _ Hpre) as Hpl.
  assert (Hmax : MaxRecordsPerFile = 100000) by reflexivity.
  assert (H1 : recordCount w1 = MaxRecordsPerFile).
  { unfold w1. simpl. unfold countMatches in Hinv. rewrite Hinv, Ha, Hpl.
    rewrite wrap_int_small by lia. lia. }
  destruct (logProgress_state w1) as (Ha1 & Hr1 & Hf1).
  unfold autoFlush. rewrite Hr1, H1, Z.leb_refl.
  destruct (saveToParquet_written env (logProgress w1)) as (Hfs & Hbuf & Hcnt & _);
    [rewrite Hr1, H1; lia|done..|].
  rewrite Hfs, Hbuf, Hcnt, Hf1, Ha1, flushCount_saveToParquet, logProgress_flushCount.
  rewrite filter_all_true by done.
  assert (Hrecs : aisRecords w1 = recordsOf json_Unmarshal (inputs ++ [(now, message, env)])).
  { unfold w1. simpl. rewrite Ha, recordsOf_app.
    by rewrite (recordsOf_cons _ (now, message, env) [] key Hk). }
  rewrite Hrecs. unfold w1 at 1. simpl fs. rewrite Hf.
  split; [done|]. split; [done|]. split; [done|]. split.
  - rewrite Hrl, length_app. simpl. lia.
  - change (flushCount w1) with (flushCount w0). rewrite Hfc. done.
Qed.

Lemma capacity_trigger_writes_one_partition_witness :
  let inputs := replicate (Z.to_nat 99999) (0, "position", envNoCreate) in
  let w' := run sampleDecoder (messageEvents (inputs ++ [(1693569600, "position", envOK)]))
              (initWorld ∅) in
  aisRecords w' = [] /\ recordCount w' = 0
  /\ fs w' = <[getNewFilePath 0 1693569600 :=
               mkPFile (recordsOf sampleDecoder (inputs ++ [(1693569600, "position", envOK)])) true]> ∅
  /\ Z.of_nat (length (recordsOf sampleDecoder (inputs ++ [(1693569600, "position", envOK)])))
     = MaxRecordsPerFile
  /\ flushCount w' = 1%nat.
Proof.
  intros inputs.
  apply (capacity_trigger_writes_one_partition sampleDecoder ∅ inputs
           1693569600 "position" envOK).
  - unfold inputs. rewrite length_replicate. reflexivity.
  - assert (Hd : decodable sampleDecoder (0, "position", envNoCreate)).
    { exists "111111111". vm_compute. reflexivity. }
    apply Forall_app. split.
    + apply Forall_forall. intros input Hin.
      apply elem_of_replicate in Hin as [-> _]. exact Hd.
    + apply Forall_cons. split; [|constructor]. exists "111111111". vm_compute. reflexivity.
  - repeat split; reflexivity.
Defined.

End IngestFacts.

(** ** The calendar *)

Module CalendarFacts.
Import GoTime.

Ltac bool_arith :=
  repeat match goal with
  | |- context [?a <=? ?b] => destruct (Z.leb_spec a b)
  | |- context [?a <? ?b] => destruct (Z.ltb_spec a b)
  | |- context [?a =? ?b] => destruct (Z.eqb_spec a b)
  end; simpl.

Ltac by_month m :=
  let H := fresh "Hmonth" in
  assert (H : m = 1 \/ m = 2 \/ m = 3 \/ m = 4 \/ m = 5 \/ m = 6 \/ m = 7
              \/ m = 8 \/ m = 9 \/ m = 10 \/ m = 11 \/ m = 12) by lia;
  repeat (destruct H as [-> | H]); [..|subst m].

Lemma dayNumber_civil_from_days z : dayNumber (civil_from_days z) = z.
Proof.
  unfold dayNumber, civil_from_days, days_from_civil.
  bool_arith; Z.div_mod_to_equations; lia.
Qed.

Lemma year_of_era_bounds doe : 0 <= doe < 146097 ->
  let yoe := (doe - doe / 1460 + doe / 36524 - doe / 146096) / 365 in
  let doy := doe - (365 * yoe + yoe / 4 - yoe / 100) in
  0 <= yoe < 400 /\ 0 <= doy /\
  (doy <= 364 \/ (doy = 365 /\ (yoe mod 4 = 3 /\ (yoe mod 100 <> 99 \/ yoe = 399)))).
Proof. intros H yoe doy. subst doy yoe. Z.div_mod_to_equations. lia. Qed.

Lemma month_day_bounds doy : 0 <= doy <= 365 ->
  let mp := (5 * doy + 2) / 153 in
  let d := doy - (153 * mp + 2) / 5 + 1 in
  0 <= mp <= 11 /\ 1 <= d /\
  (mp = 11 -> d <= 29 /\ (d = 29 -> doy = 365)) /\
  (mp = 1 \/ mp = 3 \/ mp = 6 \/ mp = 8 -> d <= 30) /\ d <= 31.
Proof. intros H mp d. subst d mp. Z.div_mod_to_equations. lia. Qed.

Lemma civil_from_days_valid z : validCivil (civil_from_days z).
Proof.
  unfold civil_from_days, validCivil.
  assert (Hdoe : 0 <= (z + 719468) mod 146097 < 146097) by (apply Z.mod_pos_bound; lia).
  set (era := (z + 719468) / 146097).
  set (doe := (z + 719468) mod 146097) in *.
  destruct (year_of_era_bounds doe Hdoe) as (Hy & Hd0 & Hd1).
  set (yoe := (doe - doe / 1460 + doe / 36524 - doe / 146096) / 365) in *.
  set (doy := doe - (365 * yoe + yoe / 4 - yoe / 100)) in *.
  assert (Hdoy : 0 <= doy <= 365) by lia.
  destruct (month_day_bounds doy Hdoy) as (Hmp & Hd & H11 & H30 & H31).
  set (mp := (5 * doy + 2) / 153) in *.
  set (d := doy - (153 * mp + 2) / 5 + 1) in *.
  clearbody d mp doy yoe era doe.
  unfold daysIn, isLeap.
  bool_arith; try lia.
  all: Z.div_mod_to_equations; lia.
Qed.

(** A date counted from the first of January of its year. *)
Lemma days_from_civil_year y m d :
  1 <= m <= 12 ->
  days_from_civil y m d =
    days_from_civil y 1 1 + (d - 1) +
    (if m <=? 2 then 31 * (m - 1)
     else 59 + (if isLeap y then 1 else 0) + ((153 * (m - 3) + 2) / 5)).
Proof.
  intros Hm. unfold days_from_civil, isLeap.
  bool_arith; try lia; Z.div_mod_to_equations; lia.
Qed.

Lemma days_jan1_succ y :
  days_from_civil (y + 1) 1 1 = days_from_civil y 1 1 + 365 + (if isLeap y then 1 else 0).
Proof.
  unfold days_from_civil, isLeap. simpl.
  replace (y + 1 - 1) with y by lia.
  bool_arith; Z.div_mod_to_equations; lia.
Qed.

Lemma days_jan1_add y (n : nat) :
  days_from_civil y 1 1 + 365 * Z.of_nat n <= days_from_civil (y + Z.of_nat n) 1 1.
Proof.
  induction n as [|n IH]; [replace (y + Z.of_nat 0) with y by lia; lia|].
  replace (y + Z.of_nat (S n)) with (y + Z.of_nat n + 1) by lia.
  rewrite days_jan1_succ. destruct (isLeap _); lia.
Qed.

Lemma days_jan1_mono y1 y2 :
  y1 <= y2 -> days_from_civil y1 1 1 + 365 * (y2 - y1) <= days_from_civil y2 1 1.
Proof.
  intros H. pose proof (days_jan1_add y1 (Z.to_nat (y2 - y1))) as Hn.
  rewrite Z2Nat.id in Hn by lia. replace (y1 + (y2 - y1)) with y2 in Hn by lia. exact Hn.
Qed.

Lemma day_of_year_bounds y m d :
  validCivil (y, m, d) ->
  0 <= days_from_civil y m d - days_from_civil y 1 1 < 365 + (if isLeap y then 1 else 0).
Proof.
  intros [Hm Hd]. rewrite days_from_civil_year by lia.
  unfold daysIn in Hd.
  remember (isLeap y) as lp eqn:Hlp; clear Hlp.
  by_month m; destruct lp; simpl in *; Z.div_mod_to_equations; lia.
Qed.

(** The day number grows strictly along the calendar. *)
Lemma dayNumber_lt c1 c2 :
  validCivil c1 -> validCivil c2 -> civil_lt c1 c2 -> dayNumber c1 < dayNumber c2.
Proof.
  destruct c1 as [[y1 m1] d1], c2 as [[y2 m2] d2]. unfold dayNumber.
  intros V1 V2 [Hy | [-> Hmd]].
  - pose proof (day_of_year_bounds _ _ _ V1). pose proof (day_of_year_bounds _ _ _ V2).
    pose proof (days_jan1_mono (y1 + 1) y2 ltac:(lia)) as Hmono.
    rewrite days_jan1_succ in Hmono. destruct (isLeap y1); lia.
  - destruct V1 as [Hm1 Hd1], V2 as [Hm2 Hd2].
    rewrite (days_from_civil_year y2 m1), (days_from_civil_year y2 m2) by lia.
    destruct Hmd as [Hm | [-> Hd]]; [|lia].
    unfold daysIn in Hd1, Hd2.
    remember (isLeap y2) as lp eqn:Hlp; clear Hlp.
    by_month m1; by_month m2; try lia;
      destruct lp; simpl in *; Z.div_mod_to_equations; lia.
Qed.

Lemma civil_trichotomy c1 c2 : civil_lt c1 c2 \/ c1 = c2 \/ civil_lt c2 c1.
Proof.
  destruct c1 as [[y1 m1] d1], c2 as [[y2 m2] d2]. unfold civil_lt.
  destruct (Z.lt_trichotomy y1 y2) as [?|[->|?]]; [lia| |lia].
  destruct (Z.lt_trichotomy m1 m2) as [?|[->|?]]; [lia| |lia].
  destruct (Z.lt_trichotomy d1 d2) as [?|[->|?]]; [lia| |lia].
  right; left; done.
Qed.

(** Later days have later dates, and equal days equal dates. *)
Lemma civil_from_days_lt z1 z2 :
  z1 < z2 -> civil_lt (civil_from_days z1) (civil_from_days z2).
Proof.
  intros Hlt.
  destruct (civil_trichotomy (civil_from_days z1) (civil_from_days z2)) as [H|[H|H]].
  - exact H.
  - apply (f_equal dayNumber) in H. rewrite !dayNumber_civil_from_days in H. lia.
  - apply dayNumber_lt in H; try apply civil_from_days_valid.
    rewrite !dayNumber_civil_from_days in H. lia.
Qed.

Lemma civil_from_days_dayNumber c : validCivil c -> civil_from_days (dayNumber c) = c.
Proof.
  intros Hv.
  destruct (civil_trichotomy (civil_from_days (dayNumber c)) c) as [H|[H|H]].
  - apply dayNumber_lt in H; [|apply civil_from_days_valid|done].
    rewrite dayNumber_civil_from_days in H. lia.
  - exact H.
  - apply dayNumber_lt in H; [|done|apply civil_from_days_valid].
    rewrite dayNumber_civil_from_days in H. lia.
Qed.

(** The year of a day in the four-digit range. *)
Lemma year_four_digits z :
  dayNumber (0, 1, 1) <= z < dayNumber (10000, 1, 1) ->
  0 <= (civil_from_days z).1.1 <= 9999.
Proof.
  intros [Hlo Hhi].
  pose proof (civil_from_days_valid z) as Hv.
  pose proof (dayNumber_civil_from_days z) as Hd.
  destruct (civil_from_days z) as [[y m] d] eqn:Hc. simpl.
  assert (V0 : validCivil (0, 1, 1)) by (vm_compute; intuition discriminate).
  assert (V1 : validCivil (10000, 1, 1)) by (vm_compute; intuition discriminate).
  split.
  - destruct (Z_lt_le_dec y 0) as [Hneg|]; [|done].
    assert (H : civil_lt (y, m, d) (0, 1, 1)) by (left; done).
    apply dayNumber_lt in H; [|done..]. lia.
  - destruct (Z_lt_le_dec 9999 y) as [Hbig|]; [|done].
    destruct Hv as [Hm Hdd].
    assert (H : (y, m, d) = (10000, 1, 1) \/ civil_lt (10000, 1, 1) (y, m, d)).
    { unfold civil_lt. destruct (Z.eq_dec y 10000) as [->|]; [|right; lia].
      destruct (Z.eq_dec m 1) as [->|]; [|right; lia].
      destruct (Z.eq_dec d 1) as [->|]; [by left|right; lia]. }
    destruct H as [H|H].
    + rewrite H in Hd. lia.
    + apply dayNumber_lt in H; [|done|by split]. lia.
Qed.

End CalendarFacts.

(** ** Formatted times and the order of strings *)

Module FormatFacts.
Import GoTime GoLib Collector Claims CalendarFacts Notions.

Lemma app_cons a (p s : string) : String a p +:+ s = String a (p +:+ s).
Proof. reflexivity. Qed.

Lemma string_app_assoc (s1 s2 s3 : string) : (s1 +:+ s2) +:+ s3 = s1 +:+ (s2 +:+ s3).
Proof.
  induction s1 as [|a s1 IH]; [reflexivity|].
  rewrite !app_cons. by rewrite IH.
Qed.

Lemma string_app_length (s1 s2 : string) :
  String.length (s1 +:+ s2) = (String.length s1 + String.length s2)%nat.
Proof.
  induction s1 as [|a s1 IH]; [reflexivity|].
  rewrite app_cons. simpl. by rewrite IH.
Qed.

Lemma ascii_compare_refl a : Ascii.compare a a = Eq.
Proof. unfold Ascii.compare. apply N.compare_refl. Qed.

Lemma string_compare_refl s : String.compare s s = Eq.
Proof. induction s as [|a s IH]; simpl; [done|]. by rewrite ascii_compare_refl. Qed.

Lemma compare_cons a b (s t : string) :
  String.compare (String a s) (String b t)
  = lexCompare (Ascii.compare a b) (String.compare s t).
Proof. simpl. by destruct (Ascii.compare a b). Qed.

(** Strings that start with pieces of equal length compare piece by piece. *)
Lemma compare_app (p q s t : string) :
  String.length p = String.length q ->
  String.compare (p +:+ s) (q +:+ t)
  = lexCompare (String.compare p q) (String.compare s t).
Proof.
  revert q. induction p as [|a p IH]; intros [|b q] Hlen; simpl in Hlen; try done.
  rewrite !app_cons, !compare_cons, IH by lia.
  by destruct (Ascii.compare a b).
Qed.

Lemma compare_app_same (p s t : string) :
  String.compare (p +:+ s) (p +:+ t) = String.compare s t.
Proof. rewrite compare_app by done. by rewrite string_compare_refl. Qed.

Lemma utod_compare x y :
  0 <= x <= 9 -> 0 <= y <= 9 -> Ascii.compare (utod x) (utod y) = (x ?= y).
Proof.
  intros Hx Hy. unfold Ascii.compare, utod.
  rewrite !N_ascii_embedding by lia.
  rewrite (Z2N.inj_compare (48 + x) (48 + y)) by lia.
  destruct (Z.compare_spec x y) as [->|?|?].
  - apply Z.compare_refl.
  - apply Z.compare_lt_iff. lia.
  - apply Z.compare_gt_iff. lia.
Qed.

Lemma appendInt_2 x : 0 <= x < 100 ->
  appendInt x 2 = String (utod (x / 10)) (String (utod (x mod 10)) "").
Proof.
  intros Hx. unfold appendInt. rewrite Z.abs_eq by lia.
  destruct (x <? 0) eqn:Hneg; [apply Z.ltb_lt in Hneg; lia|].
  destruct (x <? 100) eqn:Hlt; [|apply Z.ltb_ge in Hlt; lia]. reflexivity.
Qed.

Lemma appendInt_4 x : 0 <= x < 10000 ->
  appendInt x 4
  = String (utod (x / 1000)) (String (utod (x / 100 mod 10))
      (String (utod (x / 10 mod 10)) (String (utod (x mod 10)) ""))).
Proof.
  intros Hx. unfold appendInt. rewrite Z.abs_eq by lia.
  destruct (x <? 0) eqn:Hneg; [apply Z.ltb_lt in Hneg; lia|].
  destruct (x <? 10000) eqn:Hlt; [|apply Z.ltb_ge in Hlt; lia]. reflexivity.
Qed.

Ltac digit_range := Z.div_mod_to_equations; lia.

Lemma lexCompare_digits2 a1 a0 b1 b0 :
  0 <= a0 <= 9 -> 0 <= b0 <= 9 ->
  lexCompare (a1 ?= b1) (a0 ?= b0) = (10 * a1 + a0 ?= 10 * b1 + b0).
Proof.
  intros Ha Hb. symmetry.
  destruct (Z.compare_spec a1 b1) as [->|?|?]; simpl.
  - apply Z.add_compare_mono_l.
  - apply Z.compare_lt_iff. lia.
  - apply Z.compare_gt_iff. lia.
Qed.

Lemma compare_appendInt_2 x y (s t : string) :
  0 <= x < 100 -> 0 <= y < 100 ->
  String.compare (appendInt x 2 +:+ s) (appendInt y 2 +:+ t)
  = lexCompare (x ?= y) (String.compare s t).
Proof.
  intros Hx Hy. rewrite !appendInt_2 by done.
  rewrite !app_cons, !compare_cons. change ("" +:+ s) with s. change ("" +:+ t) with t.
  rewrite !utod_compare by digit_range.
  replace (x ?= y) with (10 * (x / 10) + x mod 10 ?= 10 * (y / 10) + y mod 10)
    by (f_equal; digit_range).
  rewrite <- lexCompare_digits2 by digit_range.
  by destruct (x / 10 ?= y / 10).
Qed.

Lemma compare_appendInt_4 x y (s t : string) :
  0 <= x < 10000 -> 0 <= y < 10000 ->
  String.compare (appendInt x 4 +:+ s) (appendInt y 4 +:+ t)
  = lexCompare (x ?= y) (String.compare s t).
Proof.
  intros Hx Hy. rewrite !appendInt_4 by done.
  rewrite !app_cons, !compare_cons. change ("" +:+ s) with s. change ("" +:+ t) with t.
  rewrite !utod_compare by digit_range.
  replace (x ?= y) with
    (10 * (10 * (10 * (x / 1000) + x / 100 mod 10) + x / 10 mod 10) + x mod 10
     ?= 10 * (10 * (10 * (y / 1000) + y / 100 mod 10) + y / 10 mod 10) + y mod 10)
    by (f_equal; digit_range).
  rewrite <- !lexCompare_digits2 by digit_range.
  destruct (x / 1000 ?= y / 1000); [|done..].
  destruct (x / 100 mod 10 ?= y / 100 mod 10); [|done..].
  by destruct (x / 10 mod 10 ?= y / 10 mod 10).
Qed.

Lemma appendInt_2_length x : 0 <= x < 100 -> String.length (appendInt x 2) = 2%nat.
Proof. intros Hx. by rewrite appendInt_2. Qed.

Lemma appendInt_4_length x : 0 <= x < 10000 -> String.length (appendInt x 4) = 4%nat.
Proof. intros Hx. by rewrite appendInt_4. Qed.

Lemma validCivil_ranges y m d :
  validCivil (y, m, d) -> 0 <= m < 100 /\ 0 <= d < 100.
Proof.
  intros [Hm Hd]. unfold daysIn in Hd.
  destruct ((m =? 2) && isLeap y); [lia|].
  destruct (m =? 2); [lia|]. destruct (_ || _); lia.
Qed.

Lemma formatYMD_length c : fourDigitCivil c -> String.length (formatYMD c) = 10%nat.
Proof.
  destruct c as [[y m] d]. intros [Hy Hv]. simpl in Hy.
  destruct (validCivil_ranges _ _ _ Hv). unfold formatYMD.
  rewrite !string_app_length, appendInt_4_length, !appendInt_2_length by lia. done.
Qed.

Lemma compare_formatYMD c1 c2 (s t : string) :
  fourDigitCivil c1 -> fourDigitCivil c2 ->
  String.compare (formatYMD c1 +:+ s) (formatYMD c2 +:+ t)
  = lexCompare (c1.1.1 ?= c2.1.1) (lexCompare (c1.1.2 ?= c2.1.2)
      (lexCompare (c1.2 ?= c2.2) (String.compare s t))).
Proof.
  destruct c1 as [[y1 m1] d1], c2 as [[y2 m2] d2]. intros [Hy1 Hv1] [Hy2 Hv2].
  simpl in Hy1, Hy2. destruct (validCivil_ranges _ _ _ Hv1), (validCivil_ranges _ _ _ Hv2).
  unfold formatYMD. simpl fst. simpl snd. rewrite !string_app_assoc.
  rewrite compare_appendInt_4 by lia. f_equal.
  rewrite (compare_app_same "-").
  rewrite compare_appendInt_2 by lia. f_equal.
  rewrite (compare_app_same "-").
  by rewrite compare_appendInt_2 by lia.
Qed.

Lemma compare_formatYMD_lt c1 c2 (s t : string) :
  fourDigitCivil c1 -> fourDigitCivil c2 -> civil_lt c1 c2 ->
  String.compare (formatYMD c1 +:+ s) (formatYMD c2 +:+ t) = Lt.
Proof.
  intros H1 H2 Hlt. rewrite compare_formatYMD by done.
  destruct c1 as [[y1 m1] d1], c2 as [[y2 m2] d2]. simpl.
  destruct Hlt as [Hy|[-> [Hm|[-> Hd]]]].
  - apply Z.compare_lt_iff in Hy. by rewrite Hy.
  - apply Z.compare_lt_iff in Hm. by rewrite Z.compare_refl, Hm.
  - apply Z.compare_lt_iff in Hd. by rewrite !Z.compare_refl, Hd.
Qed.

Lemma fourDigit_days z :
  minFourDigit <= z * secondsPerDay -> z * secondsPerDay < maxFourDigit ->
  fourDigitCivil (civil_from_days z).
Proof.
  unfold minFourDigit, maxFourDigit, secondsPerDay. intros Hlo Hhi.
  split; [|apply civil_from_days_valid].
  apply year_four_digits. vm_compute dayNumber. lia.
Qed.

Lemma fourDigit_civilDate offset t :
  minFourDigit <= t + offset < maxFourDigit ->
  fourDigitCivil (civilDate offset t).
Proof.
  unfold minFourDigit, maxFourDigit, civilDate, secondsPerDay. intros H.
  split; [|apply civil_from_days_valid].
  apply year_four_digits. vm_compute dayNumber. digit_range.
Qed.

(** Dates formatted with layout 2006-01-02 compare as their days do. *)
Lemma compare_FormatDate_days z1 z2 (s t : string) :
  fourDigitCivil (civil_from_days z1) -> fourDigitCivil (civil_from_days z2) ->
  String.compare (formatYMD (civil_from_days z1) +:+ s)
                 (formatYMD (civil_from_days z2) +:+ t)
  = lexCompare (z1 ?= z2) (String.compare s t).
Proof.
  intros H1 H2. destruct (Z.compare_spec z1 z2) as [->|Hlt|Hgt]; unfold lexCompare.
  - apply compare_app_same.
  - apply compare_formatYMD_lt; [done..|]. by apply civil_from_days_lt.
  - rewrite String.compare_antisym.
    rewrite compare_formatYMD_lt; [done..|]. by apply civil_from_days_lt.
Qed.

Lemma clock_ranges x :
  0 <= x mod secondsPerDay / 3600 < 100
  /\ 0 <= x mod 3600 / 60 < 100 /\ 0 <= x mod 60 < 100.
Proof. unfold secondsPerDay. repeat split; digit_range. Qed.

Lemma compare_FormatClock offset t1 t2 (s u : string) :
  String.compare (FormatClock offset t1 +:+ s) (FormatClock offset t2 +:+ u)
  = lexCompare ((t1 + offset) mod secondsPerDay ?= (t2 + offset) mod secondsPerDay)
      (String.compare s u).
Proof.
  unfold FormatClock, clockHour, clockMinute, clockSecond.
  destruct (clock_ranges (t1 + offset)) as (? & ? & ?).
  destruct (clock_ranges (t2 + offset)) as (? & ? & ?).
  set (x1 := t1 + offset) in *. set (x2 := t2 + offset) in *.
  rewrite !string_app_assoc.
  rewrite compare_appendInt_2 by done. rewrite (compare_app_same "-").
  rewrite compare_appendInt_2 by done. rewrite (compare_app_same "-").
  rewrite compare_appendInt_2 by done.
  unfold secondsPerDay in *.
  destruct (Z.compare_spec (x1 mod 86400) (x2 mod 86400)) as [He|Hl|Hg];
  destruct (Z.compare_spec (x1 mod 86400 / 3600) (x2 mod 86400 / 3600)) as [He1|Hl1|Hg1];
  destruct (Z.compare_spec (x1 mod 3600 / 60) (x2 mod 3600 / 60)) as [He2|Hl2|Hg2];
  destruct (Z.compare_spec (x1 mod 60) (x2 mod 60)) as [He3|Hl3|Hg3];
  simpl; try reflexivity; exfalso; digit_range.
Qed.

(** The name of a partition, field by field. *)
Lemma getNewFilePath_form offset t :
  getNewFilePath offset t
  = "ais_data/" +:+ FormatDate offset t +:+ "_" +:+ FormatClock offset t +:+ ".parquet".
Proof. unfold getNewFilePath, FormatStamp. by rewrite !string_app_assoc. Qed.

Lemma FormatClock_length offset t : String.length (FormatClock offset t) = 8%nat.
Proof.
  unfold FormatClock, clockHour, clockMinute, clockSecond.
  destruct (clock_ranges (t + offset)) as (? & ? & ?).
  rewrite !string_app_length, !appendInt_2_length by done. done.
Qed.

(** Within the four-digit years and at one zone offset, names compare as
    their instants do. *)
Lemma compare_getNewFilePath offset t1 t2 :
  minFourDigit <= t1 + offset < maxFourDigit ->
  minFourDigit <= t2 + offset < maxFourDigit ->
  String.compare (getNewFilePath offset t1) (getNewFilePath offset t2) = (t1 ?= t2).
Proof.
  intros H1 H2. rewrite !getNewFilePath_form. rewrite (compare_app_same "ais_data/").
  unfold FormatDate, civilDate.
  rewrite compare_FormatDate_days by (by apply fourDigit_civilDate).
  rewrite (compare_app_same "_"), compare_FormatClock, string_compare_refl.
  unfold secondsPerDay.
  destruct (Z.compare_spec t1 t2) as [->|Hl|Hg].
  - by rewrite !Z.compare_refl.
  - destruct (Z.compare_spec ((t1 + offset) / 86400) ((t2 + offset) / 86400)) as [He|Hl1|Hg1];
      simpl; [|done|exfalso; digit_range].
    destruct (Z.compare_spec ((t1 + offset) mod 86400) ((t2 + offset) mod 86400));
      simpl; [exfalso; digit_range|done|exfalso; digit_range].
  - destruct (Z.compare_spec ((t1 + offset) / 86400) ((t2 + offset) / 86400)) as [He|Hl1|Hg1];
      simpl; [|exfalso; digit_range|done].
    destruct (Z.compare_spec ((t1 + offset) mod 86400) ((t2 + offset) mod 86400));
      simpl; [exfalso; digit_range|exfalso; digit_range|done].
Qed.

(** Beyond the year 9999 the order breaks: the name generated in the last
    second of 9999 sorts after the name generated one second later. *)
Lemma names_not_monotone_at_year_10000 : ~ namesMonotone 0 253402300799 253402300800.
Proof. intros H. assert (Hle : 253402300799 <= 253402300800) by lia. exact (H Hle). Qed.

(** The same happens when the local zone offset drops between two flushes,
    as at the end of daylight saving time. *)
Lemma names_go_back_with_zone_offset :
  ~ (getNewFilePath 7200 1698541199 ≤ getNewFilePath 3600 1698541200)%string.
Proof. intros H. exact H. Qed.

(** [getNewFilePath] is a function of the instant and of the zone offset at
    which the clock is read; its names have the form
    ais_data/YYYY-MM-DD_HH-MM-SS.parquet, the date prefix being the calendar
    date of the instant at that offset; and for instants t1 <= t2 of the
    years 0000 to 9999 read at one and the same offset, the name generated at
    t1 is lexicographically less than or equal to the one generated at t2
    (strictly less when t1 < t2). *)
Theorem partition_names_sort_by_time offset t1 t2 :
  minFourDigit <= t1 + offset -> t2 + offset < maxFourDigit -> t1 <= t2 ->
  (getNewFilePath offset t1 ≤ getNewFilePath offset t2)%string
  /\ (t1 < t2 -> getNewFilePath offset t1 <> getNewFilePath offset t2)
  /\ getNewFilePath offset t1
     = "ais_data/" +:+ FormatDate offset t1 +:+ "_" +:+ FormatClock offset t1 +:+ ".parquet"
  /\ String.length (FormatDate offset t1) = 10%nat
  /\ String.length (FormatClock offset t1) = 8%nat.
Proof.
  intros Hlo Hhi Hle.
  assert (H1 : minFourDigit <= t1 + offset < maxFourDigit) by lia.
  assert (H2 : minFourDigit <= t2 + offset < maxFourDigit) by lia.
  pose proof (compare_getNewFilePath offset t1 t2 H1 H2) as Hcmp.
  split; [|split; [|split; [|split]]].
  - unfold String.le, String.leb. rewrite Hcmp.
    destruct (Z.compare_spec t1 t2); [done|done|lia].
  - intros Hlt Heq. rewrite Heq, string_compare_refl in Hcmp.
    symmetry in Hcmp. apply Z.compare_eq in Hcmp. lia.
  - apply getNewFilePath_form.
  - unfold FormatDate. apply formatYMD_length. by apply fourDigit_civilDate.
  - apply FormatClock_length.
Qed.

Lemma partition_names_sort_by_time_witness :
  (getNewFilePath 0 1693569600 ≤ getNewFilePath 0 1693569601)%string
  /\ (1693569600 < 1693569601 -> getNewFilePath 0 1693569600 <> getNewFilePath 0 1693569601)
  /\ getNewFilePath 0 1693569600
     = "ais_data/" +:+ FormatDate 0 1693569600 +:+ "_" +:+ FormatClock 0 1693569600 +:+ ".parquet"
  /\ String.length (FormatDate 0 1693569600) = 10%nat
  /\ String.length (FormatClock 0 1693569600) = 8%nat.
Proof.
  apply (partition_names_sort_by_time 0 1693569600 1693569601);
    unfold minFourDigit, maxFourDigit; lia.
Defined.

End FormatFacts.
